(** * mruby/c bytecode executor header (src/vm.h): data model and binary decoder

    A shallow embedding of the declarations and inline functions of
    [src/vm.h]: the fixed-width integer helpers [bin_to_uint32],
    [bin_to_uint16], [uint32_to_bin], [uint16_to_bin] over a byte-addressed
    memory, the IREP record with its pool-table macros, the catch-handler
    record, and the call-information chain of the VM. *)

From Stdlib Require Import String ZArith List Bool Lia.
Import ListNotations.
Local Open Scope Z_scope.

(** ** C integer types

    A w-bit unsigned integer is a [Z] in [0, 2^w); conversion to the type
    reduces modulo [2^w]. *)

Definition to_uint8 (x : Z) : Z := x mod 2 ^ 8.
Definition to_uint16 (x : Z) : Z := x mod 2 ^ 16.
Definition to_uint32 (x : Z) : Z := x mod 2 ^ 32.

Definition is_uint8 (x : Z) : Prop := 0 <= x < 2 ^ 8.
Definition is_uint16 (x : Z) : Prop := 0 <= x < 2 ^ 16.
Definition is_uint32 (x : Z) : Prop := 0 <= x < 2 ^ 32.

(** ** Byte-addressed memory

    Addresses are integers, a cell holds one [uint8_t].  A store through a
    byte pointer converts the stored value to [uint8_t]. *)

Definition memory := Z -> Z.

Definition load8 (m : memory) (a : Z) : Z := m a.

Definition store8 (m : memory) (a v : Z) : memory :=
  fun a' => if a' =? a then to_uint8 v else m a'.

(** Every cell holds a byte. *)
Definition bytes_at (m : memory) (a n : Z) : Prop :=
  forall i, 0 <= i < n -> is_uint8 (m (a + i)).

(** ** Host and build configuration *)

Inductive endian := Little | Big.

(** The compile-time options: the feature macros tested by [vm.h], and the
    two capacities supplied by [vm_config.h], which lies outside this
    header. *)
Record build_config := {
  MRBC_LITTLE_ENDIAN : bool;
  MRBC_BIG_ENDIAN : bool;
  MRBC_REQUIRE_32BIT_ALIGNMENT : bool;
  MRBC_DEBUG : bool;
  MAX_REGS_SIZE : Z;
  MAX_CALLINFO_DEPTH : Z
}.

(** A whole-word load through a cast pointer, as the unaligned branches do
    to read [x]: the value the host's own load
    instruction assembles from consecutive bytes, least significant byte
    first on a little-endian host, most significant first on a big-endian
    one. *)
Definition load_uint32 (host : endian) (m : memory) (s : Z) : Z :=
  match host with
  | Little => m s + 2 ^ 8 * m (s + 1) + 2 ^ 16 * m (s + 2) + 2 ^ 24 * m (s + 3)
  | Big => 2 ^ 24 * m s + 2 ^ 16 * m (s + 1) + 2 ^ 8 * m (s + 2) + m (s + 3)
  end.

Definition load_uint16 (host : endian) (m : memory) (s : Z) : Z :=
  match host with
  | Little => m s + 2 ^ 8 * m (s + 1)
  | Big => 2 ^ 8 * m s + m (s + 1)
  end.

(** ** Binary decoder *)

(** First branch of [bin_to_uint32]: little endian, no alignment.
    [return (x << 24) | ((x & 0xff00) << 8) | ((x >> 8) & 0xff00) | (x >> 24);]
    in [uint32_t] arithmetic, where a left shift wraps. *)
Definition bin_to_uint32_little (host : endian) (m : memory) (s : Z) : Z :=
  let x := load_uint32 host m s in
  Z.lor (Z.lor (Z.lor (to_uint32 (Z.shiftl x 24))
                      (to_uint32 (Z.shiftl (Z.land x 0xff00) 8)))
               (Z.land (Z.shiftr x 8) 0xff00))
        (Z.shiftr x 24).

(** Second branch: big endian, no alignment. [return x;] *)
Definition bin_to_uint32_big (host : endian) (m : memory) (s : Z) : Z :=
  let x := load_uint32 host m s in
  x.

(** Third branch: 32bit alignment required, one byte at a time. *)
Definition bin_to_uint32_aligned (m : memory) (s : Z) : Z :=
  let p := s in
  let x := load8 m p in
  let p := p + 1 in
  let x := to_uint32 (Z.shiftl x 8) in
  let x := Z.lor x (load8 m p) in
  let p := p + 1 in
  let x := to_uint32 (Z.shiftl x 8) in
  let x := Z.lor x (load8 m p) in
  let p := p + 1 in
  let x := to_uint32 (Z.shiftl x 8) in
  let x := Z.lor x (load8 m p) in
  x.

(** The [#if] chain of [bin_to_uint32]; [None] is the [#error] branch, where
    the header does not compile. *)
Definition bin_to_uint32 (cfg : build_config) (host : endian)
    (m : memory) (s : Z) : option Z :=
  if MRBC_LITTLE_ENDIAN cfg && negb (MRBC_REQUIRE_32BIT_ALIGNMENT cfg) then
    Some (bin_to_uint32_little host m s)
  else if MRBC_BIG_ENDIAN cfg && negb (MRBC_REQUIRE_32BIT_ALIGNMENT cfg) then
    Some (bin_to_uint32_big host m s)
  else if MRBC_REQUIRE_32BIT_ALIGNMENT cfg then
    Some (bin_to_uint32_aligned m s)
  else None.

(** First branch of [bin_to_uint16]: [return (x << 8) | (x >> 8);] where the
    operands are promoted and the result is converted back to [uint16_t]. *)
Definition bin_to_uint16_little (host : endian) (m : memory) (s : Z) : Z :=
  let x := load_uint16 host m s in
  to_uint16 (Z.lor (Z.shiftl x 8) (Z.shiftr x 8)).

Definition bin_to_uint16_big (host : endian) (m : memory) (s : Z) : Z :=
  let x := load_uint16 host m s in
  x.

Definition bin_to_uint16_aligned (m : memory) (s : Z) : Z :=
  let p := s in
  let x := load8 m p in
  let p := p + 1 in
  let x := to_uint16 (Z.shiftl x 8) in
  let x := Z.lor x (load8 m p) in
  x.

(** The [#if] chain of [bin_to_uint16].  Its last case has no [#else]: the
    function body is empty there, and the header is already rejected by the
    [#error] of [bin_to_uint32]. *)
Definition bin_to_uint16 (cfg : build_config) (host : endian)
    (m : memory) (s : Z) : option Z :=
  if MRBC_LITTLE_ENDIAN cfg && negb (MRBC_REQUIRE_32BIT_ALIGNMENT cfg) then
    Some (bin_to_uint16_little host m s)
  else if MRBC_BIG_ENDIAN cfg && negb (MRBC_REQUIRE_32BIT_ALIGNMENT cfg) then
    Some (bin_to_uint16_big host m s)
  else if MRBC_REQUIRE_32BIT_ALIGNMENT cfg then
    Some (bin_to_uint16_aligned m s)
  else None.

(** [uint32_to_bin(v, d)]: the pointer starts at [d + 3] and walks down. *)
Definition uint32_to_bin (v : Z) (m : memory) (d : Z) : memory :=
  let p := d + 3 in
  let m := store8 m p (Z.land 0xff v) in
  let p := p - 1 in
  let v := Z.shiftr v 8 in
  let m := store8 m p (Z.land 0xff v) in
  let p := p - 1 in
  let v := Z.shiftr v 8 in
  let m := store8 m p (Z.land 0xff v) in
  let p := p - 1 in
  let v := Z.shiftr v 8 in
  store8 m p (Z.land 0xff v).

(** [uint16_to_bin(v, d)]. *)
Definition uint16_to_bin (v : Z) (m : memory) (d : Z) : memory :=
  let p := d in
  let m := store8 m p (Z.shiftr v 8) in
  let p := p + 1 in
  store8 m p (Z.land 0xff v).

(** A configuration is supported when the header compiles and, where a
    whole-word load is used, the byte-order macro that selects the branch
    names the byte order of the host. *)
Definition supported (cfg : build_config) (host : endian) : bool :=
  if MRBC_LITTLE_ENDIAN cfg && negb (MRBC_REQUIRE_32BIT_ALIGNMENT cfg) then
    match host with Little => true | Big => false end
  else if MRBC_BIG_ENDIAN cfg && negb (MRBC_REQUIRE_32BIT_ALIGNMENT cfg) then
    match host with Big => true | Little => false end
  else MRBC_REQUIRE_32BIT_ALIGNMENT cfg.

(** The big-endian reading of four and of two bytes. *)
Definition big_endian32 (b0 b1 b2 b3 : Z) : Z :=
  Z.lor (Z.lor (Z.lor (Z.shiftl b0 24) (Z.shiftl b1 16)) (Z.shiftl b2 8)) b3.

Definition big_endian16 (b0 b1 : Z) : Z :=
  Z.lor (Z.shiftl b0 8) b1.

(** ** IREP and its pool table *)

Module IREP.
(** [struct IREP]. Pointers are addresses; [type] exists only under
    [MRBC_DEBUG]; [data] is the address of the flexible array member, which
    holds [uint16_t tbl_pools[plen]]. *)
Record t := {
  type : option (Z * Z);
  nlocals : Z;
  nregs : Z;
  rlen : Z;
  clen : Z;
  ilen : Z;
  plen : Z;
  slen : Z;
  code : Z;
  mrb_pool : Z;
  ptr_to_sym : Z;
  reps : Z;
  data : Z
}.
End IREP.

Definition mrbc_irep := IREP.t.

(** [mrbc_irep_tbl_pools(irep)[n]]: the flexible array read as an array of
    [uint16_t], element [n], by the host's own 16-bit load. *)
Definition mrbc_irep_tbl_pools (host : endian) (m : memory)
    (irep : mrbc_irep) (n : Z) : Z :=
  load_uint16 host m (IREP.data irep + 2 * n).

(** An access either evaluates to an address or is stopped by a check. *)
Inductive access := Address (p : Z) | OutOfBounds.

(** [mrbc_irep_get_pools_ptr(irep, n)].  The macro is defined outside every
    [#if], so its expansion is the same under each [build_config]; it
    compares [n] with nothing. *)
Definition mrbc_irep_get_pools_ptr (cfg : build_config) (host : endian)
    (m : memory) (irep : mrbc_irep) (n : Z) : access :=
  Address (IREP.mrb_pool irep + mrbc_irep_tbl_pools host m irep n).

(** ** Catch handlers *)



(** [uint8_t a[4]]. *)
Definition uint8_array4 := (Z * Z * Z * Z)%type.


Module IREP_CATCH_HANDLER.
(** [struct IREP_CATCH_HANDLER]: every member has type [uint8_t] or array
    of [uint8_t], so the members follow each other without padding. *)
Record t := {
  type : Z;
  begin : uint8_array4;
  end_ : uint8_array4;
  target : uint8_array4
}.
End IREP_CATCH_HANDLER.

Definition mrbc_irep_catch_handler := IREP_CATCH_HANDLER.t.


Definition sizeof_catch_handler : Z := 1 + 4 + 4 + 4.


Definition read_array4 (m : memory) (p : Z) : uint8_array4 :=
  (m p, m (p + 1), m (p + 2), m (p + 3)).

(** The handler a [mrbc_irep_catch_handler *] equal to [p] points to. *)
Definition catch_handler_at (m : memory) (p : Z) : mrbc_irep_catch_handler :=
  {| IREP_CATCH_HANDLER.type := m p;
     IREP_CATCH_HANDLER.begin := read_array4 m (p + 1);
     IREP_CATCH_HANDLER.end_ := read_array4 m (p + 5);
     IREP_CATCH_HANDLER.target := read_array4 m (p + 9) |}.

(** The array of [n] handlers starting at [p]: element [k] lies
    [k * sizeof(mrbc_irep_catch_handler)] bytes after [p]. *)
Fixpoint catch_table_at (m : memory) (p : Z) (n : nat)
    : list mrbc_irep_catch_handler :=
  match n with
  | O => []
  | S n' => catch_handler_at m p
              :: catch_table_at m (p + sizeof_catch_handler) n'
  end.


(** ** Values, call information and the VM *)

(** Modelled from the spec: [value.h], which declares [mrbc_value], lies
    outside this header.  The spec's value is a tagged union covering at
    least nil, true, false, small integer, float, symbol, string, array,
    hash, range, class, instance, proc and exception; the payload is the
    integer, the symbol identifier, or the reference to the owning
    object. *)
Inductive mrbc_vtype :=
  | MRBC_TT_NIL | MRBC_TT_TRUE | MRBC_TT_FALSE | MRBC_TT_INTEGER
  | MRBC_TT_FLOAT | MRBC_TT_SYMBOL | MRBC_TT_STRING | MRBC_TT_ARRAY
  | MRBC_TT_HASH | MRBC_TT_RANGE | MRBC_TT_CLASS | MRBC_TT_OBJECT
  | MRBC_TT_PROC | MRBC_TT_EXCEPTION.

Record mrbc_value := { vtype : mrbc_vtype; payload : Z }.

Definition mrbc_nil_value : mrbc_value :=
  {| vtype := MRBC_TT_NIL; payload := 0 |}.

Module CALLINFO.
(** [struct CALLINFO].  [prev] is the previous frame, [None] for a null
    pointer; [current_regs] is an index into the VM's [regs];
    [reg_offset] and [n_args] are [uint8_t]. *)
#[warnings="-register-all"]
Inductive t := Build {
  prev : option t;
  pc_irep : mrbc_irep;
  inst : Z;
  current_regs : Z;
  target_class : Z;
  own_class : Z;
  method_id : Z;
  reg_offset : Z;
  n_args : Z
}.
End CALLINFO.

Definition mrbc_callinfo := CALLINFO.t.

Module VM.
(** [struct VM].  [flag_debug_mode] exists only under [MRBC_DEBUG]. *)
Record t := {
  irep : mrbc_irep;
  vm_id : Z;
  mrb : Z;
  pc_irep : mrbc_irep;
  inst : Z;
  regs : list mrbc_value;
  current_regs : Z;
  callinfo_tail : option mrbc_callinfo;
  catch_stack_idx : Z;
  catch_stack : list Z;
  target_class : Z;
  flag_debug_mode : option Z;
  exc : Z;
  exc_message : mrbc_value;
  error_code : Z;
  flag_preemption : Z;
  flag_need_memfree : Z
}.
End VM.

Definition mrbc_vm := VM.t.

(** Number of frames on the chain that starts at [ci]. *)
Fixpoint callinfo_depth (ci : mrbc_callinfo) : nat :=
  match ci with
  | CALLINFO.Build p _ _ _ _ _ _ _ _ =>
      match p with
      | None => 1%nat
      | Some ci' => S (callinfo_depth ci')
      end
  end.

Definition callinfo_chain_depth (tail : option mrbc_callinfo) : Z :=
  match tail with
  | None => 0
  | Some ci => Z.of_nat (callinfo_depth ci)
  end.

Inductive vm_error := STACK_OVERFLOW.

Inductive result (A : Type) :=
  | Ok (a : A)
  | Failed (e : vm_error).
Arguments Ok {A} a.
Arguments Failed {A} e.

(** Modelled from the spec: the body of [mrbc_push_callinfo] lies outside
    this header, which has only its prototype and the structures it fills.
    Spec: inputs [method_id], [window_offset], [arg_count]; it snapshots the
    VM's current IREP, program counter, register base and target class into
    a new frame, links it at the head, and advances the VM's window; it
    fails with [STACK_OVERFLOW] if depth exceeds the configured limit or if
    [window_offset + callee.nregs > MAX_REGS].  [callee] is the IREP of the
    method being entered.  The frame's [reg_offset] and [n_args] members
    are [uint8_t], so the [int] arguments are converted on assignment. *)
Definition mrbc_push_callinfo (cfg : build_config) (callee : mrbc_irep)
    (vm : mrbc_vm) (method_id reg_offset n_args : Z) : result mrbc_vm :=
  if (MAX_CALLINFO_DEPTH cfg <? callinfo_chain_depth (VM.callinfo_tail vm) + 1)
     || (MAX_REGS_SIZE cfg <? reg_offset + IREP.nregs callee)
  then Failed STACK_OVERFLOW
  else
    let callinfo :=
      {| CALLINFO.prev := VM.callinfo_tail vm;
         CALLINFO.pc_irep := VM.pc_irep vm;
         CALLINFO.inst := VM.inst vm;
         CALLINFO.current_regs := VM.current_regs vm;
         CALLINFO.target_class := VM.target_class vm;
         CALLINFO.own_class := 0;
         CALLINFO.method_id := method_id;
         CALLINFO.reg_offset := to_uint8 reg_offset;
         CALLINFO.n_args := to_uint8 n_args |} in
    Ok {| VM.irep := VM.irep vm;
          VM.vm_id := VM.vm_id vm;
          VM.mrb := VM.mrb vm;
          VM.pc_irep := VM.pc_irep vm;
          VM.inst := VM.inst vm;
          VM.regs := VM.regs vm;
          VM.current_regs := VM.current_regs vm + reg_offset;
          VM.callinfo_tail := Some callinfo;
          VM.catch_stack_idx := VM.catch_stack_idx vm;
          VM.catch_stack := VM.catch_stack vm;
          VM.target_class := VM.target_class vm;
          VM.flag_debug_mode := VM.flag_debug_mode vm;
          VM.exc := VM.exc vm;
          VM.exc_message := VM.exc_message vm;
          VM.error_code := VM.error_code vm;
          VM.flag_preemption := VM.flag_preemption vm;
          VM.flag_need_memfree := VM.flag_need_memfree vm |}.

(** Registers [base .. base + n - 1] of [regs] set to nil; [i] is the index
    of the head of [regs]. *)
Fixpoint clear_window (base n i : Z) (regs : list mrbc_value)
    : list mrbc_value :=
  match regs with
  | [] => []
  | v :: regs' =>
      (if (base <=? i) && (i <? base + n) then mrbc_nil_value else v)
        :: clear_window base n (i + 1) regs'
  end.

(** Modelled from the spec: the body of [mrbc_pop_callinfo] lies outside
    this header, which has only its prototype.  Spec: it restores the
    snapshotted values, unlinks the head frame, and returns control to the
    caller's PC; the registers of the retiring window [register_base,
    register_base + irep.nregs) are cleared before the window retracts.
    The spec is silent on an empty chain; the VM is left as it is there. *)
Definition mrbc_pop_callinfo (vm : mrbc_vm) : mrbc_vm :=
  match VM.callinfo_tail vm with
  | None => vm
  | Some callinfo =>
      {| VM.irep := VM.irep vm;
         VM.vm_id := VM.vm_id vm;
         VM.mrb := VM.mrb vm;
         VM.pc_irep := CALLINFO.pc_irep callinfo;
         VM.inst := CALLINFO.inst callinfo;
         VM.regs := clear_window (VM.current_regs vm)
                      (IREP.nregs (VM.pc_irep vm)) 0 (VM.regs vm);
         VM.current_regs := CALLINFO.current_regs callinfo;
         VM.callinfo_tail := CALLINFO.prev callinfo;
         VM.catch_stack_idx := VM.catch_stack_idx vm;
         VM.catch_stack := VM.catch_stack vm;
         VM.target_class := CALLINFO.target_class callinfo;
         VM.flag_debug_mode := VM.flag_debug_mode vm;
         VM.exc := VM.exc vm;
         VM.exc_message := VM.exc_message vm;
         VM.error_code := VM.error_code vm;
         VM.flag_preemption := VM.flag_preemption vm;
         VM.flag_need_memfree := VM.flag_need_memfree vm |}
  end.

(** Modelled from the spec: the body of [mrbc_get_callee_name] lies outside
    this header, which has only its prototype.  Spec: the accessor reports
    the method id on the current call-info frame, or a synthetic
    [(toplevel)] when the chain is empty.  [symid_to_str] is the object
    system's table from symbol identifiers to names. *)
Definition mrbc_get_callee_name (symid_to_str : Z -> string) (vm : mrbc_vm)
    : string :=
  match VM.callinfo_tail vm with
  | None => "(toplevel)"%string
  | Some callinfo => symid_to_str (CALLINFO.method_id callinfo)
  end.

(** ** Concrete inputs used by the examples below *)

(** Little-endian host without alignment constraint, release build. *)
Definition cfg_little : build_config :=
  {| MRBC_LITTLE_ENDIAN := true; MRBC_BIG_ENDIAN := false;
     MRBC_REQUIRE_32BIT_ALIGNMENT := false; MRBC_DEBUG := false;
     MAX_REGS_SIZE := 110; MAX_CALLINFO_DEPTH := 16 |}.

(** Big-endian host that requires alignment, debug build. *)
Definition cfg_debug : build_config :=
  {| MRBC_LITTLE_ENDIAN := false; MRBC_BIG_ENDIAN := true;
     MRBC_REQUIRE_32BIT_ALIGNMENT := true; MRBC_DEBUG := true;
     MAX_REGS_SIZE := 110; MAX_CALLINFO_DEPTH := 16 |}.

(** A memory whose cell at address [a] holds the low byte of [a]. *)
Definition mem_ramp : memory := fun a => a mod 2 ^ 8.

(** An IREP with a single pool entry whose table lies at address [0x100]
    and whose pool region starts at [0x2000], as a release build holds
    it. *)
Definition irep_example : mrbc_irep :=
  {| IREP.type := None;
     IREP.nlocals := 2; IREP.nregs := 5; IREP.rlen := 0; IREP.clen := 0;
     IREP.ilen := 8; IREP.plen := 1; IREP.slen := 0;
     IREP.code := 0x1000; IREP.mrb_pool := 0x2000; IREP.ptr_to_sym := 0;
     IREP.reps := 0; IREP.data := 0x100 |}.

(** The same IREP as a debug build holds it, tagged IR. *)
Definition irep_debug_example : mrbc_irep :=
  {| IREP.type := Some (73, 82);
     IREP.nlocals := 2; IREP.nregs := 5; IREP.rlen := 0; IREP.clen := 0;
     IREP.ilen := 8; IREP.plen := 1; IREP.slen := 0;
     IREP.code := 0x1000; IREP.mrb_pool := 0x2000; IREP.ptr_to_sym := 0;
     IREP.reps := 0; IREP.data := 0x100 |}.

(** The IREP of a method about to be entered, as a release build holds it:
    one pool entry, pool table at [0x180], pool region at [0x2800]. *)
Definition callee_example : mrbc_irep :=
  {| IREP.type := None;
     IREP.nlocals := 1; IREP.nregs := 4; IREP.rlen := 0; IREP.clen := 0;
     IREP.ilen := 6; IREP.plen := 1; IREP.slen := 0;
     IREP.code := 0x1800; IREP.mrb_pool := 0x2800; IREP.ptr_to_sym := 0;
     IREP.reps := 0; IREP.data := 0x180 |}.

(** A VM at top level: empty call-information chain, window at register 0,
    eight registers shown. *)
Definition vm_example : mrbc_vm :=
  {| VM.irep := irep_example;
     VM.vm_id := 1;
     VM.mrb := 0x800;
     VM.pc_irep := irep_example;
     VM.inst := 0x1004;
     VM.regs := repeat {| vtype := MRBC_TT_INTEGER; payload := 7 |} 8;
     VM.current_regs := 0;
     VM.callinfo_tail := None;
     VM.catch_stack_idx := 0;
     VM.catch_stack := [0; 0; 0; 0; 0];
     VM.target_class := 0x3000;
     VM.flag_debug_mode := None;
     VM.exc := 0;
     VM.exc_message := mrbc_nil_value;
     VM.error_code := 0;
     VM.flag_preemption := 0;
     VM.flag_need_memfree := 0 |}.

(** A table from symbol identifiers to names. *)
Definition symid_to_str_example (id : Z) : string :=
  if id =? 42 then "each"%string else "?"%string.

(** The frame of a call of method 42 made from [vm_example], and the VM
    inside that call. *)
Definition callinfo_example : mrbc_callinfo :=
  {| CALLINFO.prev := None;
     CALLINFO.pc_irep := irep_example;
     CALLINFO.inst := 0x1004;
     CALLINFO.current_regs := 0;
     CALLINFO.target_class := 0x3000;
     CALLINFO.own_class := 0;
     CALLINFO.method_id := 42;
     CALLINFO.reg_offset := 2;
     CALLINFO.n_args := 1 |}.

Definition vm_in_method : mrbc_vm :=
  {| VM.irep := irep_example;
     VM.vm_id := 1;
     VM.mrb := 0x800;
     VM.pc_irep := callee_example;
     VM.inst := 0x1800;
     VM.regs := repeat {| vtype := MRBC_TT_INTEGER; payload := 7 |} 8;
     VM.current_regs := 2;
     VM.callinfo_tail := Some callinfo_example;
     VM.catch_stack_idx := 0;
     VM.catch_stack := [0; 0; 0; 0; 0];
     VM.target_class := 0x3000;
     VM.flag_debug_mode := None;
     VM.exc := 0;
     VM.exc_message := mrbc_nil_value;
     VM.error_code := 0;
     VM.flag_preemption := 0;
     VM.flag_need_memfree := 0 |}.

(** The number a 4-byte member holds when read most significant byte
    first, as [bin_to_uint32] reads it. *)
Definition array4_uint32 (a : uint8_array4) : Z :=
  let '(a0, a1, a2, a3) := a in big_endian32 a0 a1 a2 a3.

(** ** Catch-table entries as records *)










(** * Properties *)

(** ** Bit-level facts used by the decoder proofs *)

Lemma lor_disjoint_add (a b n : Z) :
  0 <= n -> a mod 2 ^ n = 0 -> 0 <= b < 2 ^ n -> Z.lor a b = a + b.
Proof.
  intros Hn Ha Hb.
  assert (Hland : Z.land a b = 0).
  { apply Z.bits_inj'; intros i Hi.
    rewrite Z.land_spec, Z.bits_0.
    destruct (Z.lt_ge_cases i n) as [Hlt | Hge].
    - rewrite <- (Z.mod_pow2_bits_low a n i) by lia.
      rewrite Ha, Z.bits_0. reflexivity.
    - rewrite <- (Z.mod_small b (2 ^ n)) by lia.
      rewrite Z.mod_pow2_bits_high by lia.
      apply andb_false_r. }
  rewrite <- Z.lxor_lor by exact Hland.
  symmetry. apply Z.add_nocarry_lxor. exact Hland.
Qed.

Lemma land_byte1 (x : Z) : Z.land x 0xff00 = 2 ^ 8 * ((x / 2 ^ 8) mod 2 ^ 8).
Proof.
  change 0xff00 with (Z.shiftl (Z.ones 8) 8).
  rewrite <- (Z.land_ones (x / 2 ^ 8) 8) by lia.
  rewrite <- Z.shiftr_div_pow2 by lia.
  rewrite Z.mul_comm, <- Z.shiftl_mul_pow2 by lia.
  rewrite Z.shiftl_land.
  apply Z.bits_inj'; intros i Hi.
  rewrite !Z.land_spec.
  destruct (Z.lt_ge_cases i 8) as [Hlt | Hge].
  - rewrite !Z.shiftl_spec_low by lia. rewrite andb_false_r. reflexivity.
  - rewrite !Z.shiftl_spec by lia. rewrite Z.shiftr_spec by lia.
    replace (i - 8 + 8) with i by lia. reflexivity.
Qed.

Lemma land_byte0 (x : Z) : Z.land 0xff x = x mod 2 ^ 8.
Proof.
  rewrite Z.land_comm. change 0xff with (Z.ones 8).
  apply Z.land_ones. lia.
Qed.

Ltac to_arith :=
  unfold to_uint8, to_uint16, to_uint32, is_uint8, is_uint16, is_uint32 in *;
  rewrite ?land_byte1, ?land_byte0, ?Z.shiftr_div_pow2, ?Z.shiftl_mul_pow2
    by lia;
  change (2 ^ 8) with 256 in *; change (2 ^ 16) with 65536 in *;
  change (2 ^ 24) with 16777216 in *; change (2 ^ 32) with 4294967296 in *.

Lemma big_endian32_arith (b0 b1 b2 b3 : Z) :
  is_uint8 b0 -> is_uint8 b1 -> is_uint8 b2 -> is_uint8 b3 ->
  big_endian32 b0 b1 b2 b3 = 2 ^ 24 * b0 + 2 ^ 16 * b1 + 2 ^ 8 * b2 + b3.
Proof.
  intros H0 H1 H2 H3. unfold big_endian32. to_arith.
  rewrite (lor_disjoint_add (b0 * 16777216) (b1 * 65536) 24);
    [ | lia | change (2 ^ 24) with 16777216; Z.div_mod_to_equations; lia
      | change (2 ^ 24) with 16777216; lia ].
  rewrite (lor_disjoint_add _ (b2 * 256) 16);
    [ | lia | change (2 ^ 16) with 65536; Z.div_mod_to_equations; lia
      | change (2 ^ 16) with 65536; lia ].
  rewrite (lor_disjoint_add _ b3 8);
    [ | lia | change (2 ^ 8) with 256; Z.div_mod_to_equations; lia
      | change (2 ^ 8) with 256; lia ].
  lia.
Qed.

Lemma big_endian16_arith (b0 b1 : Z) :
  is_uint8 b0 -> is_uint8 b1 -> big_endian16 b0 b1 = 2 ^ 8 * b0 + b1.
Proof.
  intros H0 H1. unfold big_endian16. to_arith.
  rewrite (lor_disjoint_add _ b1 8);
    [ | lia | change (2 ^ 8) with 256; Z.div_mod_to_equations; lia
      | change (2 ^ 8) with 256; lia ].
  lia.
Qed.

(** Turns the outermost [Z.lor _ b] whose right operand fits below bit [n],
    and whose left operand is a multiple of [2 ^ n], into a sum. *)
Ltac lor_to_add b n :=
  match goal with
  | |- context [Z.lor ?a b] =>
      rewrite (lor_disjoint_add a b n);
      [ | lia
        | to_arith; Z.div_mod_to_equations; lia
        | to_arith; Z.div_mod_to_equations; lia ]
  end.

Section Decoder.
Variables (m : memory) (s : Z).

Lemma bytes_at_4 :
  bytes_at m s 4 ->
  is_uint8 (m s) /\ is_uint8 (m (s + 1))
  /\ is_uint8 (m (s + 2)) /\ is_uint8 (m (s + 3)).
Proof.
  intros H.
  pose proof (H 0 ltac:(lia)) as H0. rewrite Z.add_0_r in H0.
  pose proof (H 1 ltac:(lia)). pose proof (H 2 ltac:(lia)).
  pose proof (H 3 ltac:(lia)). auto.
Qed.

Lemma bytes_at_2 : bytes_at m s 2 -> is_uint8 (m s) /\ is_uint8 (m (s + 1)).
Proof.
  intros H.
  pose proof (H 0 ltac:(lia)) as H0. rewrite Z.add_0_r in H0.
  pose proof (H 1 ltac:(lia)). auto.
Qed.

(** The byte swap, applied to what a little-endian host loads. *)
Lemma bin_to_uint32_little_spec :
  bytes_at m s 4 ->
  bin_to_uint32_little Little m s
  = big_endian32 (m s) (m (s + 1)) (m (s + 2)) (m (s + 3)).
Proof.
  intros H. destruct (bytes_at_4 H) as (H0 & H1 & H2 & H3).
  rewrite big_endian32_arith by assumption.
  unfold bin_to_uint32_little, load_uint32. cbv zeta.
  set (x := m s + 2 ^ 8 * m (s + 1) + 2 ^ 16 * m (s + 2) + 2 ^ 24 * m (s + 3)).
  assert (E24 : Z.shiftr x 24 = m (s + 3))
    by (subst x; to_arith; Z.div_mod_to_equations; lia).
  assert (E8 : Z.land (Z.shiftr x 8) 0xff00 = 2 ^ 8 * m (s + 2))
    by (subst x; to_arith; Z.div_mod_to_equations; lia).
  assert (E16 : to_uint32 (Z.shiftl (Z.land x 0xff00) 8) = 2 ^ 16 * m (s + 1))
    by (subst x; to_arith; Z.div_mod_to_equations; lia).
  assert (E0 : to_uint32 (Z.shiftl x 24) = 2 ^ 24 * m s)
    by (subst x; to_arith; Z.div_mod_to_equations; lia).
  rewrite E24, E8, E16, E0.
  lor_to_add (2 ^ 16 * m (s + 1)) 24.
  lor_to_add (2 ^ 8 * m (s + 2)) 16.
  lor_to_add (m (s + 3)) 8.
  reflexivity.
Qed.

(** What a big-endian host loads is the big-endian reading already. *)
Lemma bin_to_uint32_big_spec :
  bytes_at m s 4 ->
  bin_to_uint32_big Big m s
  = big_endian32 (m s) (m (s + 1)) (m (s + 2)) (m (s + 3)).
Proof.
  intros H. destruct (bytes_at_4 H) as (H0 & H1 & H2 & H3).
  rewrite big_endian32_arith by assumption.
  reflexivity.
Qed.

(** The byte-at-a-time loop, which no host byte order enters. *)
Lemma bin_to_uint32_aligned_spec :
  bytes_at m s 4 ->
  bin_to_uint32_aligned m s
  = big_endian32 (m s) (m (s + 1)) (m (s + 2)) (m (s + 3)).
Proof.
  intros H. destruct (bytes_at_4 H) as (H0 & H1 & H2 & H3).
  rewrite big_endian32_arith by assumption.
  unfold bin_to_uint32_aligned, load8. cbv zeta.
  replace (s + 1 + 1) with (s + 2) by lia.
  replace (s + 2 + 1) with (s + 3) by lia.
  assert (E1 : to_uint32 (Z.shiftl (m s) 8) = 2 ^ 8 * m s)
    by (to_arith; Z.div_mod_to_equations; lia).
  rewrite E1. lor_to_add (m (s + 1)) 8.
  assert (E2 : to_uint32 (Z.shiftl (2 ^ 8 * m s + m (s + 1)) 8)
               = 2 ^ 16 * m s + 2 ^ 8 * m (s + 1))
    by (to_arith; Z.div_mod_to_equations; lia).
  rewrite E2. lor_to_add (m (s + 2)) 8.
  assert (E3 : to_uint32
                 (Z.shiftl (2 ^ 16 * m s + 2 ^ 8 * m (s + 1) + m (s + 2)) 8)
               = 2 ^ 24 * m s + 2 ^ 16 * m (s + 1) + 2 ^ 8 * m (s + 2))
    by (to_arith; Z.div_mod_to_equations; lia).
  rewrite E3. lor_to_add (m (s + 3)) 8.
  reflexivity.
Qed.

Lemma bin_to_uint16_little_spec :
  bytes_at m s 2 ->
  bin_to_uint16_little Little m s = big_endian16 (m s) (m (s + 1)).
Proof.
  intros H. destruct (bytes_at_2 H) as (H0 & H1).
  rewrite big_endian16_arith by assumption.
  unfold bin_to_uint16_little, load_uint16. cbv zeta.
  set (x := m s + 2 ^ 8 * m (s + 1)).
  assert (E8 : Z.shiftr x 8 = m (s + 1))
    by (subst x; to_arith; Z.div_mod_to_equations; lia).
  rewrite E8. lor_to_add (m (s + 1)) 8.
  subst x; to_arith; Z.div_mod_to_equations; lia.
Qed.

Lemma bin_to_uint16_big_spec :
  bytes_at m s 2 ->
  bin_to_uint16_big Big m s = big_endian16 (m s) (m (s + 1)).
Proof.
  intros H. destruct (bytes_at_2 H) as (H0 & H1).
  rewrite big_endian16_arith by assumption.
  reflexivity.
Qed.

Lemma bin_to_uint16_aligned_spec :
  bytes_at m s 2 ->
  bin_to_uint16_aligned m s = big_endian16 (m s) (m (s + 1)).
Proof.
  intros H. destruct (bytes_at_2 H) as (H0 & H1).
  rewrite big_endian16_arith by assumption.
  unfold bin_to_uint16_aligned, load8. cbv zeta.
  assert (E1 : to_uint16 (Z.shiftl (m s) 8) = 2 ^ 8 * m s)
    by (to_arith; Z.div_mod_to_equations; lia).
  rewrite E1. lor_to_add (m (s + 1)) 8.
  reflexivity.
Qed.

End Decoder.

(** ** Encoder: the bytes written *)

Lemma uint32_to_bin_cell (v : Z) (m : memory) (d a : Z) :
  uint32_to_bin v m d a =
    if a =? d then (v / 2 ^ 24) mod 2 ^ 8
    else if a =? d + 1 then (v / 2 ^ 16) mod 2 ^ 8
    else if a =? d + 2 then (v / 2 ^ 8) mod 2 ^ 8
    else if a =? d + 3 then v mod 2 ^ 8
    else m a.
Proof.
  unfold uint32_to_bin, store8. cbv zeta.
  replace (d + 3 - 1) with (d + 2) by lia.
  replace (d + 2 - 1) with (d + 1) by lia.
  replace (d + 1 - 1) with d by lia.
  destruct (Z.eqb_spec a d) as [E0 | N0];
    [ to_arith; Z.div_mod_to_equations; lia | ].
  destruct (Z.eqb_spec a (d + 1)) as [E1 | N1];
    [ to_arith; Z.div_mod_to_equations; lia | ].
  destruct (Z.eqb_spec a (d + 2)) as [E2 | N2];
    [ to_arith; Z.div_mod_to_equations; lia | ].
  destruct (Z.eqb_spec a (d + 3)) as [E3 | N3];
    [ to_arith; Z.div_mod_to_equations; lia | ].
  reflexivity.
Qed.

Lemma uint16_to_bin_cell (v : Z) (m : memory) (d a : Z) :
  uint16_to_bin v m d a =
    if a =? d then (v / 2 ^ 8) mod 2 ^ 8
    else if a =? d + 1 then v mod 2 ^ 8
    else m a.
Proof.
  unfold uint16_to_bin, store8. cbv zeta.
  destruct (Z.eqb_spec a d) as [E0 | N0].
  - destruct (Z.eqb_spec a (d + 1)); [ lia | ].
    to_arith. reflexivity.
  - destruct (Z.eqb_spec a (d + 1)) as [E1 | N1]; [ | reflexivity ].
    to_arith. Z.div_mod_to_equations; lia.
Qed.

Lemma uint32_to_bin_bytes_at (v : Z) (m : memory) (d : Z) :
  bytes_at (uint32_to_bin v m d) d 4.
Proof.
  intros i Hi. rewrite uint32_to_bin_cell. unfold is_uint8.
  repeat match goal with
         | |- context [?a =? ?b] => destruct (Z.eqb_spec a b)
         end;
    try (apply Z.mod_pos_bound; lia); lia.
Qed.

Lemma uint16_to_bin_bytes_at (v : Z) (m : memory) (d : Z) :
  bytes_at (uint16_to_bin v m d) d 2.
Proof.
  intros i Hi. rewrite uint16_to_bin_cell. unfold is_uint8.
  repeat match goal with
         | |- context [?a =? ?b] => destruct (Z.eqb_spec a b)
         end;
    try (apply Z.mod_pos_bound; lia); lia.
Qed.

(** The four bytes [uint32_to_bin] leaves at [d], read big-endian, are the
    value written. *)
Lemma big_endian32_written (x : Z) (m : memory) (d : Z) :
  is_uint32 x ->
  let m' := uint32_to_bin x m d in
  big_endian32 (m' d) (m' (d + 1)) (m' (d + 2)) (m' (d + 3)) = x.
Proof.
  intros Hx m'.
  destruct (bytes_at_4 m' d (uint32_to_bin_bytes_at x m d))
    as (H0 & H1 & H2 & H3).
  rewrite big_endian32_arith by assumption.
  subst m'. rewrite !uint32_to_bin_cell.
  rewrite Z.eqb_refl.
  replace (d + 1 =? d) with false by (symmetry; apply Z.eqb_neq; lia).
  replace (d + 2 =? d) with false by (symmetry; apply Z.eqb_neq; lia).
  replace (d + 3 =? d) with false by (symmetry; apply Z.eqb_neq; lia).
  replace (d + 2 =? d + 1) with false by (symmetry; apply Z.eqb_neq; lia).
  replace (d + 3 =? d + 1) with false by (symmetry; apply Z.eqb_neq; lia).
  replace (d + 3 =? d + 2) with false by (symmetry; apply Z.eqb_neq; lia).
  rewrite !Z.eqb_refl.
  to_arith. Z.div_mod_to_equations. lia.
Qed.

Lemma big_endian16_written (x : Z) (m : memory) (d : Z) :
  is_uint16 x ->
  let m' := uint16_to_bin x m d in
  big_endian16 (m' d) (m' (d + 1)) = x.
Proof.
  intros Hx m'.
  destruct (bytes_at_2 m' d (uint16_to_bin_bytes_at x m d)) as (H0 & H1).
  rewrite big_endian16_arith by assumption.
  subst m'. rewrite !uint16_to_bin_cell.
  rewrite Z.eqb_refl.
  replace (d + 1 =? d) with false by (symmetry; apply Z.eqb_neq; lia).
  rewrite !Z.eqb_refl.
  to_arith. Z.div_mod_to_equations. lia.
Qed.

(** In a supported configuration the [#if] chains select a branch that
    reads big-endian. *)
Lemma bin_to_uint32_supported (cfg : build_config) (host : endian)
    (m : memory) (s : Z) :
  supported cfg host = true ->
  bytes_at m s 4 ->
  bin_to_uint32 cfg host m s
  = Some (big_endian32 (m s) (m (s + 1)) (m (s + 2)) (m (s + 3))).
Proof.
  unfold supported, bin_to_uint32. intros Hs Hb.
  destruct (MRBC_LITTLE_ENDIAN cfg && negb (MRBC_REQUIRE_32BIT_ALIGNMENT cfg)).
  { destruct host; [ | discriminate ].
    rewrite bin_to_uint32_little_spec by assumption. reflexivity. }
  destruct (MRBC_BIG_ENDIAN cfg && negb (MRBC_REQUIRE_32BIT_ALIGNMENT cfg)).
  { destruct host; [ discriminate | ].
    rewrite bin_to_uint32_big_spec by assumption. reflexivity. }
  rewrite Hs. rewrite bin_to_uint32_aligned_spec by assumption. reflexivity.
Qed.

Lemma bin_to_uint16_supported (cfg : build_config) (host : endian)
    (m : memory) (s : Z) :
  supported cfg host = true ->
  bytes_at m s 2 ->
  bin_to_uint16 cfg host m s = Some (big_endian16 (m s) (m (s + 1))).
Proof.
  unfold supported, bin_to_uint16. intros Hs Hb.
  destruct (MRBC_LITTLE_ENDIAN cfg && negb (MRBC_REQUIRE_32BIT_ALIGNMENT cfg)).
  { destruct host; [ | discriminate ].
    rewrite bin_to_uint16_little_spec by assumption. reflexivity. }
  destruct (MRBC_BIG_ENDIAN cfg && negb (MRBC_REQUIRE_32BIT_ALIGNMENT cfg)).
  { destruct host; [ discriminate | ].
    rewrite bin_to_uint16_big_spec by assumption. reflexivity. }
  rewrite Hs. rewrite bin_to_uint16_aligned_spec by assumption. reflexivity.
Qed.

Lemma mem_ramp_bytes (a n : Z) : bytes_at mem_ramp a n.
Proof.
  intros i _. unfold mem_ramp, is_uint8. apply Z.mod_pos_bound. lia.
Qed.

(** ** The claims about the binary decoder *)

(** C1. Round trip: in every supported host configuration [bin_to_uint32]
    applied to the four bytes written by [uint32_to_bin x] returns [x], for
    every 32-bit [x]; and [bin_to_uint16] applied to the two bytes written
    by [uint16_to_bin x] returns [x], for every 16-bit [x]. *)
Theorem bin_roundtrip (cfg : build_config) (host : endian)
    (m : memory) (d x : Z) :
  supported cfg host = true ->
  (is_uint32 x -> bin_to_uint32 cfg host (uint32_to_bin x m d) d = Some x)
  /\ (is_uint16 x -> bin_to_uint16 cfg host (uint16_to_bin x m d) d = Some x).
Proof.
  intros Hs. split; intros Hx.
  - rewrite bin_to_uint32_supported
      by (assumption || apply uint32_to_bin_bytes_at).
    f_equal. apply (big_endian32_written x m d Hx).
  - rewrite bin_to_uint16_supported
      by (assumption || apply uint16_to_bin_bytes_at).
    f_equal. apply (big_endian16_written x m d Hx).
Qed.

Lemma bin_roundtrip_witness :
  bin_to_uint32 cfg_little Little (uint32_to_bin 0xdeadbeef mem_ramp 16) 16
  = Some 0xdeadbeef
  /\ bin_to_uint16 cfg_debug Big (uint16_to_bin 0xbeef mem_ramp 16) 16
     = Some 0xbeef.
Proof.
  split.
  - apply (bin_roundtrip cfg_little Little mem_ramp 16 0xdeadbeef).
    + reflexivity.
    + unfold is_uint32. lia.
  - apply (bin_roundtrip cfg_debug Big mem_ramp 16 0xbeef).
    + reflexivity.
    + unfold is_uint16. lia.
Defined.

(** C2. The three conditionally compiled bodies of [bin_to_uint32] (byte
    swap of a little-endian unaligned load, identity on a big-endian
    unaligned load, byte at a time) all return the big-endian reading
    [(b0 << 24) | (b1 << 16) | (b2 << 8) | b3] of the four bytes at [s], and
    the three bodies of [bin_to_uint16] all return [(b0 << 8) | b1]. *)
Theorem bin_to_uint_variants_agree (m : memory) (s : Z) :
  bytes_at m s 4 ->
  (bin_to_uint32_little Little m s
     = big_endian32 (m s) (m (s + 1)) (m (s + 2)) (m (s + 3))
   /\ bin_to_uint32_big Big m s
     = big_endian32 (m s) (m (s + 1)) (m (s + 2)) (m (s + 3))
   /\ bin_to_uint32_aligned m s
     = big_endian32 (m s) (m (s + 1)) (m (s + 2)) (m (s + 3)))
  /\ (bin_to_uint16_little Little m s = big_endian16 (m s) (m (s + 1))
      /\ bin_to_uint16_big Big m s = big_endian16 (m s) (m (s + 1))
      /\ bin_to_uint16_aligned m s = big_endian16 (m s) (m (s + 1))).
Proof.
  intros H4.
  assert (H2 : bytes_at m s 2) by (intros i Hi; apply H4; lia).
  repeat split.
  - apply bin_to_uint32_little_spec; assumption.
  - apply bin_to_uint32_big_spec; assumption.
  - apply bin_to_uint32_aligned_spec; assumption.
  - apply bin_to_uint16_little_spec; assumption.
  - apply bin_to_uint16_big_spec; assumption.
  - apply bin_to_uint16_aligned_spec; assumption.
Qed.

Lemma bin_to_uint_variants_agree_witness :
  (bin_to_uint32_little Little mem_ramp 0x12 = 0x12131415
   /\ bin_to_uint32_big Big mem_ramp 0x12 = 0x12131415
   /\ bin_to_uint32_aligned mem_ramp 0x12 = 0x12131415)
  /\ (bin_to_uint16_little Little mem_ramp 0x12 = 0x1213
      /\ bin_to_uint16_big Big mem_ramp 0x12 = 0x1213
      /\ bin_to_uint16_aligned mem_ramp 0x12 = 0x1213).
Proof.
  exact (bin_to_uint_variants_agree mem_ramp 0x12 (mem_ramp_bytes 0x12 4)).
Defined.

(** C10. [uint32_to_bin v d] writes exactly the four cells [d .. d + 3],
    with the big-endian digits of [v]; [uint16_to_bin v d] exactly the two
    cells [d], [d + 1].  Every other cell keeps its content, and the cells
    written do not depend on what the memory held before. *)
Theorem uint_to_bin_frame (v : Z) (m : memory) (d : Z) :
  (uint32_to_bin v m d d = (v / 2 ^ 24) mod 2 ^ 8
   /\ uint32_to_bin v m d (d + 1) = (v / 2 ^ 16) mod 2 ^ 8
   /\ uint32_to_bin v m d (d + 2) = (v / 2 ^ 8) mod 2 ^ 8
   /\ uint32_to_bin v m d (d + 3) = v mod 2 ^ 8
   /\ (forall a, ~ d <= a < d + 4 -> uint32_to_bin v m d a = m a)
   /\ (forall m' a, d <= a < d + 4 ->
         uint32_to_bin v m d a = uint32_to_bin v m' d a))
  /\ (uint16_to_bin v m d d = (v / 2 ^ 8) mod 2 ^ 8
      /\ uint16_to_bin v m d (d + 1) = v mod 2 ^ 8
      /\ (forall a, ~ d <= a < d + 2 -> uint16_to_bin v m d a = m a)
      /\ (forall m' a, d <= a < d + 2 ->
            uint16_to_bin v m d a = uint16_to_bin v m' d a)).
Proof.
  repeat split; intros; rewrite ?uint32_to_bin_cell, ?uint16_to_bin_cell;
    repeat match goal with
           | |- context [?a =? ?b] => destruct (Z.eqb_spec a b)
           end;
    reflexivity || lia.
Qed.

Lemma uint_to_bin_frame_witness :
  uint32_to_bin 0x01020304 mem_ramp 16 15 = mem_ramp 15
  /\ uint32_to_bin 0x01020304 mem_ramp 16 20 = mem_ramp 20
  /\ uint32_to_bin 0x01020304 mem_ramp 16 18
     = uint32_to_bin 0x01020304 (fun _ => 0) 16 18
  /\ uint16_to_bin 0x0102 mem_ramp 16 18 = mem_ramp 18
  /\ uint16_to_bin 0x0102 mem_ramp 16 17
     = uint16_to_bin 0x0102 (fun _ => 0) 16 17.
Proof.
  pose proof (uint_to_bin_frame 0x01020304 mem_ramp 16) as [H32 _].
  pose proof (uint_to_bin_frame 0x0102 mem_ramp 16) as [_ H16].
  destruct H32 as (_ & _ & _ & _ & Hout & Hin).
  destruct H16 as (_ & _ & Hout16 & Hin16).
  refine (conj _ (conj _ (conj _ (conj _ _)))).
  - apply Hout. lia.
  - apply Hout. lia.
  - apply Hin. lia.
  - apply Hout16. lia.
  - apply Hin16. lia.
Defined.

(** ** The catch table *)



Lemma catch_table_at_length (m : memory) (p : Z) (n : nat) :
  length (catch_table_at m p n) = n.
Proof.
  revert p. induction n as [ | n IH ]; intros p; [ reflexivity | ].
  cbn [catch_table_at length]. rewrite IH. reflexivity.
Qed.




Lemma catch_table_at_nth (m : memory) (n : nat) :
  forall (p : Z) (k : nat),
    (k < n)%nat ->
    nth_error (catch_table_at m p n) k
    = Some (catch_handler_at m (p + Z.of_nat k * sizeof_catch_handler)).
Proof.
  unfold sizeof_catch_handler.
  induction n as [ | n IH ]; intros p k Hk; [ inversion Hk | ].
  destruct k as [ | k ]; cbn [catch_table_at nth_error].
  - do 2 f_equal. lia.
  - rewrite IH by (apply PeanoNat.lt_S_n; exact Hk).
    unfold sizeof_catch_handler. do 2 f_equal. lia.
Qed.

(** *** Bytes stored in a row *)




(** *** Entries and the structures that hold them *)







(** *** A table laid out in memory *)









(** ** The pool accessor *)

Lemma load_uint16_range (host : endian) (m : memory) (s : Z) :
  bytes_at m s 2 -> is_uint16 (load_uint16 host m s).
Proof.
  intros H. destruct (bytes_at_2 m s H) as (H0 & H1).
  unfold load_uint16. destruct host; to_arith; lia.
Qed.

(** C4, as the header has it. [mrbc_irep_get_pools_ptr(irep, n)] is the
    address [mrb_pool] plus the 16-bit offset held in slot [n] of the pool
    table, under every build configuration and for every [n]: the macro
    never compares [n] with [plen], with or without [MRBC_DEBUG], so
    [n < plen] is the caller's obligation in debug and release builds
    alike. *)
Theorem pool_entry_address (cfg : build_config) (host : endian)
    (m : memory) (irep : mrbc_irep) (n : Z) :
  bytes_at m (IREP.data irep + 2 * n) 2 ->
  is_uint16 (mrbc_irep_tbl_pools host m irep n)
  /\ mrbc_irep_get_pools_ptr cfg host m irep n
     = Address (IREP.mrb_pool irep + mrbc_irep_tbl_pools host m irep n)
  /\ mrbc_irep_get_pools_ptr cfg host m irep n <> OutOfBounds
  /\ (forall cfg', mrbc_irep_get_pools_ptr cfg' host m irep n
                   = mrbc_irep_get_pools_ptr cfg host m irep n).
Proof.
  intros H. split; [ apply load_uint16_range; exact H | ].
  split; [ reflexivity | ].
  split; [ discriminate | reflexivity ].
Qed.

Lemma pool_entry_address_witness :
  is_uint16 (mrbc_irep_tbl_pools Little mem_ramp callee_example 0)
  /\ mrbc_irep_get_pools_ptr cfg_little Little mem_ramp callee_example 0
     = Address (0x2800 + 0x8180)
  /\ mrbc_irep_get_pools_ptr cfg_little Little mem_ramp callee_example 0
     <> OutOfBounds
  /\ (forall cfg', mrbc_irep_get_pools_ptr cfg' Little mem_ramp callee_example 0
                   = mrbc_irep_get_pools_ptr cfg_little Little mem_ramp
                       callee_example 0).
Proof.
  exact (pool_entry_address cfg_little Little mem_ramp callee_example 0
           (mem_ramp_bytes _ 2)).
Defined.

(** C4 as the spec words it fails: in a debug build an index past [plen] is
    not stopped; the macro yields an address like any other. *)
Lemma pool_entry_debug_unchecked :
  MRBC_DEBUG cfg_debug = true
  /\ IREP.plen irep_debug_example = 1
  /\ mrbc_irep_get_pools_ptr cfg_debug Big mem_ramp irep_debug_example 3
     = Address 0x2607
  /\ mrbc_irep_get_pools_ptr cfg_debug Big mem_ramp irep_debug_example 3
     <> OutOfBounds.
Proof.
  split; [ reflexivity | ]. split; [ reflexivity | ].
  split; [ reflexivity | discriminate ].
Qed.

(** ** The call-information chain *)

Lemma callinfo_chain_depth_push (ci : mrbc_callinfo) :
  callinfo_chain_depth (Some ci)
  = callinfo_chain_depth (CALLINFO.prev ci) + 1.
Proof.
  destruct ci as [p ? ? ? ? ? ? ? ?]. cbn [CALLINFO.prev].
  unfold callinfo_chain_depth. destruct p as [ci' | ].
  - cbn [callinfo_depth]. lia.
  - reflexivity.
Qed.

Lemma callinfo_chain_depth_nonneg (tail : option mrbc_callinfo) :
  0 <= callinfo_chain_depth tail.
Proof. destruct tail; cbn; lia. Qed.

(** What a successful push leaves behind. *)
Lemma mrbc_push_callinfo_ok (cfg : build_config) (callee : mrbc_irep)
    (vm vm' : mrbc_vm) (method_id reg_offset n_args : Z) :
  mrbc_push_callinfo cfg callee vm method_id reg_offset n_args = Ok vm' ->
  exists callinfo,
    VM.callinfo_tail vm' = Some callinfo
    /\ CALLINFO.prev callinfo = VM.callinfo_tail vm
    /\ CALLINFO.pc_irep callinfo = VM.pc_irep vm
    /\ CALLINFO.inst callinfo = VM.inst vm
    /\ CALLINFO.current_regs callinfo = VM.current_regs vm
    /\ CALLINFO.target_class callinfo = VM.target_class vm
    /\ CALLINFO.method_id callinfo = method_id
    /\ CALLINFO.reg_offset callinfo = to_uint8 reg_offset
    /\ CALLINFO.n_args callinfo = to_uint8 n_args
    /\ VM.pc_irep vm' = VM.pc_irep vm
    /\ VM.inst vm' = VM.inst vm
    /\ VM.target_class vm' = VM.target_class vm
    /\ VM.current_regs vm' = VM.current_regs vm + reg_offset.
Proof.
  unfold mrbc_push_callinfo.
  destruct (_ || _); [ discriminate | ].
  intros E. injection E as <-.
  eexists. cbn. repeat split.
Qed.

(** C5. [mrbc_push_callinfo] fails with [STACK_OVERFLOW] when the chain
    would grow past [MAX_CALLINFO_DEPTH] or when
    [reg_offset + callee.nregs > MAX_REGS_SIZE]; in every other case it
    succeeds, the new frame is the head of the chain with the old head as
    its [prev], and the register window has advanced by [reg_offset]. *)
Theorem mrbc_push_callinfo_cases (cfg : build_config) (callee : mrbc_irep)
    (vm : mrbc_vm) (method_id reg_offset n_args : Z) :
  (MAX_CALLINFO_DEPTH cfg < callinfo_chain_depth (VM.callinfo_tail vm) + 1
   \/ MAX_REGS_SIZE cfg < reg_offset + IREP.nregs callee ->
   mrbc_push_callinfo cfg callee vm method_id reg_offset n_args
   = Failed STACK_OVERFLOW)
  /\ (callinfo_chain_depth (VM.callinfo_tail vm) + 1 <= MAX_CALLINFO_DEPTH cfg
      /\ reg_offset + IREP.nregs callee <= MAX_REGS_SIZE cfg ->
      exists vm' callinfo,
        mrbc_push_callinfo cfg callee vm method_id reg_offset n_args = Ok vm'
        /\ VM.callinfo_tail vm' = Some callinfo
        /\ CALLINFO.prev callinfo = VM.callinfo_tail vm
        /\ callinfo_chain_depth (VM.callinfo_tail vm')
           = callinfo_chain_depth (VM.callinfo_tail vm) + 1
        /\ VM.current_regs vm' = VM.current_regs vm + reg_offset).
Proof.
  split.
  - intros H. unfold mrbc_push_callinfo.
    replace (_ || _) with true; [ reflexivity | ].
    symmetry. apply orb_true_iff.
    destruct H as [H | H]; [ left | right ]; apply Z.ltb_lt; exact H.
  - intros [Hd Hr].
    destruct (mrbc_push_callinfo cfg callee vm method_id reg_offset n_args)
      as [vm' | e] eqn:E.
    + destruct (mrbc_push_callinfo_ok _ _ _ _ _ _ _ E)
        as (ci & Ht & Hp & _ & _ & _ & _ & _ & _ & _ & _ & _ & _ & Hw).
      exists vm', ci. repeat split; try assumption.
      rewrite Ht, callinfo_chain_depth_push, Hp. reflexivity.
    + exfalso. revert E. unfold mrbc_push_callinfo.
      replace (_ || _) with false; [ discriminate | ].
      symmetry. apply orb_false_iff.
      split; apply Z.ltb_ge; assumption.
Qed.

Lemma mrbc_push_callinfo_cases_witness :
  mrbc_push_callinfo cfg_little callee_example vm_example 42 107 1
  = Failed STACK_OVERFLOW
  /\ exists vm' callinfo,
       mrbc_push_callinfo cfg_little callee_example vm_example 42 2 1 = Ok vm'
       /\ VM.callinfo_tail vm' = Some callinfo
       /\ CALLINFO.prev callinfo = None
       /\ callinfo_chain_depth (VM.callinfo_tail vm') = 1
       /\ VM.current_regs vm' = 2.
Proof.
  split.
  - apply (proj1 (mrbc_push_callinfo_cases cfg_little callee_example
                    vm_example 42 107 1)).
    right. cbn. lia.
  - apply (proj2 (mrbc_push_callinfo_cases cfg_little callee_example
                    vm_example 42 2 1)).
    cbn. lia.
Defined.

(** C6. Popping right after a successful push gives back the VM's current
    IREP, instruction pointer, register base and target class as they were
    before the push, and the chain has its previous head again. *)
Theorem mrbc_pop_after_push (cfg : build_config) (callee : mrbc_irep)
    (vm vm' : mrbc_vm) (method_id reg_offset n_args : Z) :
  mrbc_push_callinfo cfg callee vm method_id reg_offset n_args = Ok vm' ->
  VM.pc_irep (mrbc_pop_callinfo vm') = VM.pc_irep vm
  /\ VM.inst (mrbc_pop_callinfo vm') = VM.inst vm
  /\ VM.current_regs (mrbc_pop_callinfo vm') = VM.current_regs vm
  /\ VM.target_class (mrbc_pop_callinfo vm') = VM.target_class vm
  /\ VM.callinfo_tail (mrbc_pop_callinfo vm') = VM.callinfo_tail vm.
Proof.
  intros E.
  destruct (mrbc_push_callinfo_ok _ _ _ _ _ _ _ E)
    as (ci & Ht & Hp & Hi & Hn & Hr & Hc & _).
  unfold mrbc_pop_callinfo. rewrite Ht. cbn.
  repeat split; assumption.
Qed.

Lemma mrbc_pop_after_push_witness :
  exists vm',
    mrbc_push_callinfo cfg_little callee_example vm_example 42 2 1 = Ok vm'
    /\ VM.pc_irep (mrbc_pop_callinfo vm') = irep_example
    /\ VM.inst (mrbc_pop_callinfo vm') = 0x1004
    /\ VM.current_regs (mrbc_pop_callinfo vm') = 0
    /\ VM.target_class (mrbc_pop_callinfo vm') = 0x3000
    /\ VM.callinfo_tail (mrbc_pop_callinfo vm') = None.
Proof.
  eexists. split; [ reflexivity | ].
  exact (mrbc_pop_after_push cfg_little callee_example vm_example _ 42 2 1
           eq_refl).
Defined.

(** C8. [mrbc_get_callee_name] is the name bound to the method id of the
    head frame when the chain is not empty, and [(toplevel)] when it is. *)
Theorem mrbc_get_callee_name_cases (symid_to_str : Z -> string)
    (vm : mrbc_vm) :
  (VM.callinfo_tail vm = None ->
   mrbc_get_callee_name symid_to_str vm = "(toplevel)"%string)
  /\ (forall callinfo, VM.callinfo_tail vm = Some callinfo ->
      mrbc_get_callee_name symid_to_str vm
      = symid_to_str (CALLINFO.method_id callinfo)).
Proof.
  unfold mrbc_get_callee_name. split.
  - intros ->. reflexivity.
  - intros ci ->. reflexivity.
Qed.

Lemma mrbc_get_callee_name_cases_witness :
  mrbc_get_callee_name symid_to_str_example vm_example = "(toplevel)"%string
  /\ mrbc_get_callee_name symid_to_str_example vm_in_method = "each"%string.
Proof.
  split.
  - exact (proj1 (mrbc_get_callee_name_cases symid_to_str_example vm_example)
             eq_refl).
  - exact (proj2 (mrbc_get_callee_name_cases symid_to_str_example vm_in_method)
             callinfo_example eq_refl).
Defined.

(** C9. The frame keeps [reg_offset] and [n_args] in 8-bit members: after a
    successful push the head frame holds the two [int] arguments reduced
    modulo 256, so a value above 255 is recorded truncated. *)
Theorem mrbc_push_callinfo_truncates (cfg : build_config)
    (callee : mrbc_irep) (vm vm' : mrbc_vm) (method_id reg_offset n_args : Z) :
  mrbc_push_callinfo cfg callee vm method_id reg_offset n_args = Ok vm' ->
  exists callinfo,
    VM.callinfo_tail vm' = Some callinfo
    /\ CALLINFO.reg_offset callinfo = reg_offset mod 256
    /\ CALLINFO.n_args callinfo = n_args mod 256
    /\ (255 < reg_offset -> CALLINFO.reg_offset callinfo <> reg_offset)
    /\ (255 < n_args -> CALLINFO.n_args callinfo <> n_args).
Proof.
  intros E.
  destruct (mrbc_push_callinfo_ok _ _ _ _ _ _ _ E)
    as (ci & Ht & _ & _ & _ & _ & _ & _ & Ho & Ha & _).
  exists ci. unfold to_uint8 in *. change (2 ^ 8) with 256 in *.
  repeat split; try assumption.
  - intros H. rewrite Ho. pose proof (Z.mod_pos_bound reg_offset 256). lia.
  - intros H. rewrite Ha. pose proof (Z.mod_pos_bound n_args 256). lia.
Qed.

Lemma mrbc_push_callinfo_truncates_witness :
  exists vm' callinfo,
    mrbc_push_callinfo cfg_little callee_example vm_example 42 2 300 = Ok vm'
    /\ VM.callinfo_tail vm' = Some callinfo
    /\ CALLINFO.reg_offset callinfo = 2
    /\ CALLINFO.n_args callinfo = 44.
Proof.
  destruct (mrbc_push_callinfo_truncates cfg_little callee_example vm_example
              _ 42 2 300 eq_refl) as (ci & Ht & Ho & Ha & _).
  eexists. exists ci.
  split; [ reflexivity | ].
  split; [ exact Ht | ].
  split; [ exact Ho | exact Ha ].
Defined.

(** * Further properties of the binary decoder and encoder *)

(** ** A byte-order macro that misnames the host *)

Section Mismatch.
Variables (m : memory) (s : Z).

(** The swap applied to what a big-endian host loads reads the bytes from
    the last to the first. *)
Lemma bin_to_uint32_little_on_big :
  bytes_at m s 4 ->
  bin_to_uint32_little Big m s
  = big_endian32 (m (s + 3)) (m (s + 2)) (m (s + 1)) (m s).
Proof.
  intros H. destruct (bytes_at_4 m s H) as (H0 & H1 & H2 & H3).
  rewrite big_endian32_arith by assumption.
  unfold bin_to_uint32_little, load_uint32. cbv zeta.
  set (x := 2 ^ 24 * m s + 2 ^ 16 * m (s + 1) + 2 ^ 8 * m (s + 2) + m (s + 3)).
  assert (E24 : Z.shiftr x 24 = m s)
    by (subst x; to_arith; Z.div_mod_to_equations; lia).
  assert (E8 : Z.land (Z.shiftr x 8) 0xff00 = 2 ^ 8 * m (s + 1))
    by (subst x; to_arith; Z.div_mod_to_equations; lia).
  assert (E16 : to_uint32 (Z.shiftl (Z.land x 0xff00) 8) = 2 ^ 16 * m (s + 2))
    by (subst x; to_arith; Z.div_mod_to_equations; lia).
  assert (E0 : to_uint32 (Z.shiftl x 24) = 2 ^ 24 * m (s + 3))
    by (subst x; to_arith; Z.div_mod_to_equations; lia).
  rewrite E24, E8, E16, E0.
  lor_to_add (2 ^ 16 * m (s + 2)) 24.
  lor_to_add (2 ^ 8 * m (s + 1)) 16.
  lor_to_add (m s) 8.
  reflexivity.
Qed.

Lemma bin_to_uint32_big_on_little :
  bytes_at m s 4 ->
  bin_to_uint32_big Little m s
  = big_endian32 (m (s + 3)) (m (s + 2)) (m (s + 1)) (m s).
Proof.
  intros H. destruct (bytes_at_4 m s H) as (H0 & H1 & H2 & H3).
  rewrite big_endian32_arith by assumption.
  unfold bin_to_uint32_big, load_uint32. cbv zeta. lia.
Qed.

Lemma bin_to_uint16_little_on_big :
  bytes_at m s 2 ->
  bin_to_uint16_little Big m s = big_endian16 (m (s + 1)) (m s).
Proof.
  intros H. destruct (bytes_at_2 m s H) as (H0 & H1).
  rewrite big_endian16_arith by assumption.
  unfold bin_to_uint16_little, load_uint16. cbv zeta.
  set (x := 2 ^ 8 * m s + m (s + 1)).
  assert (E8 : Z.shiftr x 8 = m s)
    by (subst x; to_arith; Z.div_mod_to_equations; lia).
  rewrite E8. lor_to_add (m s) 8.
  subst x; to_arith; Z.div_mod_to_equations; lia.
Qed.

Lemma bin_to_uint16_big_on_little :
  bytes_at m s 2 ->
  bin_to_uint16_big Little m s = big_endian16 (m (s + 1)) (m s).
Proof.
  intros H. destruct (bytes_at_2 m s H) as (H0 & H1).
  rewrite big_endian16_arith by assumption.
  unfold bin_to_uint16_big, load_uint16. cbv zeta. lia.
Qed.

End Mismatch.

Lemma bytes_at_weaken (m : memory) (s n n' : Z) :
  n' <= n -> bytes_at m s n -> bytes_at m s n'.
Proof. intros Hn H i Hi. apply H. lia. Qed.

Lemma bytes_at_shift (m : memory) (s k n n' : Z) :
  0 <= k -> k + n' <= n -> bytes_at m s n -> bytes_at m (s + k) n'.
Proof.
  intros Hk Hn H i Hi. replace (s + k + i) with (s + (k + i)) by lia.
  apply H. lia.
Qed.

(** What the [#if] chains return in each configuration that compiles: the
    big-endian reading where the configuration is supported, the bytes read
    from the last to the first where it is not. *)
Lemma bin_to_uint32_reading (cfg : build_config) (host : endian)
    (m : memory) (s x : Z) :
  bytes_at m s 4 ->
  bin_to_uint32 cfg host m s = Some x ->
  x = if supported cfg host
      then big_endian32 (m s) (m (s + 1)) (m (s + 2)) (m (s + 3))
      else big_endian32 (m (s + 3)) (m (s + 2)) (m (s + 1)) (m s).
Proof.
  unfold supported, bin_to_uint32. intros Hb.
  destruct (MRBC_LITTLE_ENDIAN cfg && negb (MRBC_REQUIRE_32BIT_ALIGNMENT cfg)).
  { intros E; injection E as <-. destruct host.
    - apply bin_to_uint32_little_spec; assumption.
    - apply bin_to_uint32_little_on_big; assumption. }
  destruct (MRBC_BIG_ENDIAN cfg && negb (MRBC_REQUIRE_32BIT_ALIGNMENT cfg)).
  { intros E; injection E as <-. destruct host.
    - apply bin_to_uint32_big_on_little; assumption.
    - apply bin_to_uint32_big_spec; assumption. }
  destruct (MRBC_REQUIRE_32BIT_ALIGNMENT cfg); [ | discriminate ].
  intros E; injection E as <-.
  apply bin_to_uint32_aligned_spec; assumption.
Qed.

Lemma bin_to_uint16_reading (cfg : build_config) (host : endian)
    (m : memory) (s x : Z) :
  bytes_at m s 2 ->
  bin_to_uint16 cfg host m s = Some x ->
  x = if supported cfg host
      then big_endian16 (m s) (m (s + 1))
      else big_endian16 (m (s + 1)) (m s).
Proof.
  unfold supported, bin_to_uint16. intros Hb.
  destruct (MRBC_LITTLE_ENDIAN cfg && negb (MRBC_REQUIRE_32BIT_ALIGNMENT cfg)).
  { intros E; injection E as <-. destruct host.
    - apply bin_to_uint16_little_spec; assumption.
    - apply bin_to_uint16_little_on_big; assumption. }
  destruct (MRBC_BIG_ENDIAN cfg && negb (MRBC_REQUIRE_32BIT_ALIGNMENT cfg)).
  { intros E; injection E as <-. destruct host.
    - apply bin_to_uint16_big_on_little; assumption.
    - apply bin_to_uint16_big_spec; assumption. }
  destruct (MRBC_REQUIRE_32BIT_ALIGNMENT cfg); [ | discriminate ].
  intros E; injection E as <-.
  apply bin_to_uint16_aligned_spec; assumption.
Qed.

Lemma big_endian32_range (b0 b1 b2 b3 : Z) :
  is_uint8 b0 -> is_uint8 b1 -> is_uint8 b2 -> is_uint8 b3 ->
  is_uint32 (big_endian32 b0 b1 b2 b3).
Proof.
  intros H0 H1 H2 H3. rewrite big_endian32_arith by assumption.
  to_arith. lia.
Qed.

Lemma big_endian16_range (b0 b1 : Z) :
  is_uint8 b0 -> is_uint8 b1 -> is_uint16 (big_endian16 b0 b1).
Proof.
  intros H0 H1. rewrite big_endian16_arith by assumption.
  to_arith. lia.
Qed.

(** The header compiles as soon as one of the three macros is defined. *)
Lemma bin_to_uint32_compiles (cfg : build_config) (host : endian)
    (m : memory) (s : Z) :
  MRBC_LITTLE_ENDIAN cfg || MRBC_BIG_ENDIAN cfg
    || MRBC_REQUIRE_32BIT_ALIGNMENT cfg = true ->
  exists x, bin_to_uint32 cfg host m s = Some x.
Proof.
  unfold bin_to_uint32.
  destruct (MRBC_LITTLE_ENDIAN cfg), (MRBC_BIG_ENDIAN cfg),
    (MRBC_REQUIRE_32BIT_ALIGNMENT cfg); cbn; intros H;
    try discriminate; eexists; reflexivity.
Qed.

Lemma bin_to_uint16_compiles (cfg : build_config) (host : endian)
    (m : memory) (s : Z) :
  MRBC_LITTLE_ENDIAN cfg || MRBC_BIG_ENDIAN cfg
    || MRBC_REQUIRE_32BIT_ALIGNMENT cfg = true ->
  exists x, bin_to_uint16 cfg host m s = Some x.
Proof.
  unfold bin_to_uint16.
  destruct (MRBC_LITTLE_ENDIAN cfg), (MRBC_BIG_ENDIAN cfg),
    (MRBC_REQUIRE_32BIT_ALIGNMENT cfg); cbn; intros H;
    try discriminate; eexists; reflexivity.
Qed.

(** X1. Writing back what was decoded changes nothing: in a supported
    configuration, [uint32_to_bin] of the value [bin_to_uint32] reads at
    [s], stored at [s] again, leaves every cell of a byte memory as it was;
    likewise for the 16-bit pair. *)
Theorem bin_decode_then_encode (cfg : build_config) (host : endian)
    (m : memory) (s : Z) :
  supported cfg host = true ->
  bytes_at m s 4 ->
  (exists x, bin_to_uint32 cfg host m s = Some x
             /\ forall a, uint32_to_bin x m s a = m a)
  /\ (exists y, bin_to_uint16 cfg host m s = Some y
                /\ forall a, uint16_to_bin y m s a = m a).
Proof.
  intros Hs H4.
  assert (H2 : bytes_at m s 2)
    by (apply (bytes_at_weaken m s 4); [ lia | exact H4 ]).
  destruct (bytes_at_4 m s H4) as (B0 & B1 & B2 & B3).
  split.
  - eexists. split; [ apply bin_to_uint32_supported; assumption | ].
    intros a. rewrite uint32_to_bin_cell, big_endian32_arith by assumption.
    repeat match goal with
           | |- context [?u =? ?v] => destruct (Z.eqb_spec u v)
           end; subst; try reflexivity;
      to_arith; Z.div_mod_to_equations; lia.
  - eexists. split; [ apply bin_to_uint16_supported; assumption | ].
    intros a. rewrite uint16_to_bin_cell, big_endian16_arith by assumption.
    repeat match goal with
           | |- context [?u =? ?v] => destruct (Z.eqb_spec u v)
           end; subst; try reflexivity;
      to_arith; Z.div_mod_to_equations; lia.
Qed.

Lemma bin_decode_then_encode_witness :
  (exists x, bin_to_uint32 cfg_little Little mem_ramp 0x12 = Some x
             /\ forall a, uint32_to_bin x mem_ramp 0x12 a = mem_ramp a)
  /\ (exists y, bin_to_uint16 cfg_little Little mem_ramp 0x12 = Some y
                /\ forall a, uint16_to_bin y mem_ramp 0x12 a = mem_ramp a).
Proof.
  exact (bin_decode_then_encode cfg_little Little mem_ramp 0x12 eq_refl
           (mem_ramp_bytes 0x12 4)).
Defined.

(** X2. In every configuration in which the header compiles, whether or not
    the byte-order macro names the host, the decoders return a value of
    their result type: [bin_to_uint32] a number below [2^32] and
    [bin_to_uint16] a number below [2^16], on a byte memory. *)
Theorem bin_to_uint_range (cfg : build_config) (host : endian)
    (m : memory) (s : Z) :
  MRBC_LITTLE_ENDIAN cfg || MRBC_BIG_ENDIAN cfg
    || MRBC_REQUIRE_32BIT_ALIGNMENT cfg = true ->
  bytes_at m s 4 ->
  (exists x, bin_to_uint32 cfg host m s = Some x /\ is_uint32 x)
  /\ (exists y, bin_to_uint16 cfg host m s = Some y /\ is_uint16 y).
Proof.
  intros Hc H4.
  assert (H2 : bytes_at m s 2)
    by (apply (bytes_at_weaken m s 4); [ lia | exact H4 ]).
  destruct (bytes_at_4 m s H4) as (B0 & B1 & B2 & B3).
  split.
  - destruct (bin_to_uint32_compiles cfg host m s Hc) as [x E].
    exists x. split; [ exact E | ].
    rewrite (bin_to_uint32_reading cfg host m s x H4 E).
    destruct (supported cfg host); apply big_endian32_range; assumption.
  - destruct (bin_to_uint16_compiles cfg host m s Hc) as [y E].
    exists y. split; [ exact E | ].
    rewrite (bin_to_uint16_reading cfg host m s y H2 E).
    destruct (supported cfg host); apply big_endian16_range; assumption.
Qed.

Lemma bin_to_uint_range_witness :
  (exists x, bin_to_uint32 cfg_little Big mem_ramp 0xfc = Some x
             /\ is_uint32 x)
  /\ (exists y, bin_to_uint16 cfg_little Big mem_ramp 0xfc = Some y
                /\ is_uint16 y).
Proof.
  exact (bin_to_uint_range cfg_little Big mem_ramp 0xfc eq_refl
           (mem_ramp_bytes 0xfc 4)).
Defined.

(** X3. A byte-order macro that misnames the host is not detected: where
    the configuration is not supported and an endian macro is defined, both
    decoders return the bytes read from the last to the first; where no
    macro at all is defined the header stops at [#error]. *)
Theorem bin_to_uint_byte_order_mismatch (cfg : build_config) (host : endian)
    (m : memory) (s : Z) :
  supported cfg host = false ->
  bytes_at m s 4 ->
  if MRBC_LITTLE_ENDIAN cfg || MRBC_BIG_ENDIAN cfg
  then bin_to_uint32 cfg host m s
       = Some (big_endian32 (m (s + 3)) (m (s + 2)) (m (s + 1)) (m s))
       /\ bin_to_uint16 cfg host m s
          = Some (big_endian16 (m (s + 1)) (m s))
  else bin_to_uint32 cfg host m s = None
       /\ bin_to_uint16 cfg host m s = None.
Proof.
  intros Hs H4.
  assert (H2 : bytes_at m s 2)
    by (apply (bytes_at_weaken m s 4); [ lia | exact H4 ]).
  destruct (MRBC_LITTLE_ENDIAN cfg || MRBC_BIG_ENDIAN cfg) eqn:Hm.
  - assert (Hc : MRBC_LITTLE_ENDIAN cfg || MRBC_BIG_ENDIAN cfg
                   || MRBC_REQUIRE_32BIT_ALIGNMENT cfg = true)
      by (rewrite Hm; reflexivity).
    destruct (bin_to_uint32_compiles cfg host m s Hc) as [x E].
    destruct (bin_to_uint16_compiles cfg host m s Hc) as [y E'].
    pose proof (bin_to_uint32_reading cfg host m s x H4 E) as Hx.
    pose proof (bin_to_uint16_reading cfg host m s y H2 E') as Hy.
    rewrite Hs in Hx, Hy. subst x y. split; assumption.
  - apply orb_false_iff in Hm. destruct Hm as [Hl Hb].
    revert Hs. unfold supported, bin_to_uint32, bin_to_uint16.
    rewrite Hl, Hb. cbn. intros ->. split; reflexivity.
Qed.

Lemma bin_to_uint_byte_order_mismatch_witness :
  bin_to_uint32 cfg_little Big (uint32_to_bin 1 mem_ramp 16) 16
  = Some 0x01000000
  /\ bin_to_uint16 cfg_little Big (uint32_to_bin 1 mem_ramp 16) 16 = Some 0.
Proof.
  exact (bin_to_uint_byte_order_mismatch cfg_little Big
           (uint32_to_bin 1 mem_ramp 16) 16 eq_refl
           (uint32_to_bin_bytes_at 1 mem_ramp 16)).
Defined.

(** ** Locality of reads and writes *)

Lemma bin_to_uint16_local_cells (cfg : build_config) (host : endian)
    (m1 m2 : memory) (s : Z) :
  (forall i, 0 <= i < 2 -> m1 (s + i) = m2 (s + i)) ->
  bin_to_uint16 cfg host m1 s = bin_to_uint16 cfg host m2 s.
Proof.
  intros H2.
  pose proof (H2 0 ltac:(lia)) as E0. rewrite Z.add_0_r in E0.
  pose proof (H2 1 ltac:(lia)) as E1.
  unfold bin_to_uint16, bin_to_uint16_little, bin_to_uint16_big,
    bin_to_uint16_aligned, load_uint16, load8. cbv zeta.
  rewrite E0, E1. reflexivity.
Qed.

Lemma bin_to_uint32_local_cells (cfg : build_config) (host : endian)
    (m1 m2 : memory) (s : Z) :
  (forall i, 0 <= i < 4 -> m1 (s + i) = m2 (s + i)) ->
  bin_to_uint32 cfg host m1 s = bin_to_uint32 cfg host m2 s.
Proof.
  intros H4.
  pose proof (H4 0 ltac:(lia)) as E0. rewrite Z.add_0_r in E0.
  pose proof (H4 1 ltac:(lia)) as E1.
  pose proof (H4 2 ltac:(lia)) as E2.
  pose proof (H4 3 ltac:(lia)) as E3.
  unfold bin_to_uint32, bin_to_uint32_little, bin_to_uint32_big,
    bin_to_uint32_aligned, load_uint32, load8. cbv zeta.
  replace (s + 1 + 1) with (s + 2) by lia.
  replace (s + 2 + 1) with (s + 3) by lia.
  rewrite E0, E1, E2, E3. reflexivity.
Qed.

(** X4. [bin_to_uint32] reads the four cells [s .. s + 3] and nothing else,
    [bin_to_uint16] the two cells [s], [s + 1]: in every configuration, two
    memories that agree on those cells give the same result. *)
Theorem bin_to_uint_local (cfg : build_config) (host : endian)
    (m1 m2 : memory) (s : Z) :
  (forall i, 0 <= i < 2 -> m1 (s + i) = m2 (s + i)) ->
  bin_to_uint16 cfg host m1 s = bin_to_uint16 cfg host m2 s
  /\ ((forall i, 0 <= i < 4 -> m1 (s + i) = m2 (s + i)) ->
      bin_to_uint32 cfg host m1 s = bin_to_uint32 cfg host m2 s).
Proof.
  intros H2. split.
  - apply bin_to_uint16_local_cells. exact H2.
  - apply bin_to_uint32_local_cells.
Qed.

Lemma bin_to_uint_local_witness :
  bin_to_uint16 cfg_debug Big mem_ramp 0x12
  = bin_to_uint16 cfg_debug Big (store8 mem_ramp 0x14 0xff) 0x12
  /\ bin_to_uint32 cfg_debug Big mem_ramp 0x12
     = bin_to_uint32 cfg_debug Big (store8 mem_ramp 0x16 0xff) 0x12.
Proof.
  split.
  - apply (bin_to_uint_local cfg_debug Big mem_ramp
             (store8 mem_ramp 0x14 0xff) 0x12).
    intros i Hi. unfold store8.
    destruct (Z.eqb_spec (0x12 + i) 0x14); [ lia | reflexivity ].
  - apply (bin_to_uint_local cfg_debug Big mem_ramp
             (store8 mem_ramp 0x16 0xff) 0x12).
    + intros i Hi. unfold store8.
      destruct (Z.eqb_spec (0x12 + i) 0x16); [ lia | reflexivity ].
    + intros i Hi. unfold store8.
      destruct (Z.eqb_spec (0x12 + i) 0x16); [ lia | reflexivity ].
Defined.

Lemma uint32_to_bin_outside (v : Z) (m : memory) (d a : Z) :
  a < d \/ d + 4 <= a -> uint32_to_bin v m d a = m a.
Proof.
  intros H. rewrite uint32_to_bin_cell.
  repeat match goal with
         | |- context [?u =? ?w] => destruct (Z.eqb_spec u w)
         end; reflexivity || lia.
Qed.

Lemma uint16_to_bin_outside (v : Z) (m : memory) (d a : Z) :
  a < d \/ d + 2 <= a -> uint16_to_bin v m d a = m a.
Proof.
  intros H. rewrite uint16_to_bin_cell.
  repeat match goal with
         | |- context [?u =? ?w] => destruct (Z.eqb_spec u w)
         end; reflexivity || lia.
Qed.

(** X5. A write does not disturb a read next to it: a value of either
    width decoded at [s] is the same before and after [uint32_to_bin] or
    [uint16_to_bin] stores at a destination [d] whose cells do not meet the
    cells read, in every configuration. *)
Theorem bin_read_over_write (cfg : build_config) (host : endian)
    (v : Z) (m : memory) (d s : Z) :
  (s + 4 <= d \/ d + 4 <= s ->
   bin_to_uint32 cfg host (uint32_to_bin v m d) s
   = bin_to_uint32 cfg host m s)
  /\ (s + 4 <= d \/ d + 2 <= s ->
      bin_to_uint32 cfg host (uint16_to_bin v m d) s
      = bin_to_uint32 cfg host m s)
  /\ (s + 2 <= d \/ d + 4 <= s ->
      bin_to_uint16 cfg host (uint32_to_bin v m d) s
      = bin_to_uint16 cfg host m s)
  /\ (s + 2 <= d \/ d + 2 <= s ->
      bin_to_uint16 cfg host (uint16_to_bin v m d) s
      = bin_to_uint16 cfg host m s).
Proof.
  repeat split; intros H;
    (apply bin_to_uint32_local_cells || apply bin_to_uint16_local_cells);
    intros i Hi;
    (apply uint32_to_bin_outside || apply uint16_to_bin_outside); lia.
Qed.

Lemma bin_read_over_write_witness :
  bin_to_uint32 cfg_little Little (uint32_to_bin 0xdeadbeef mem_ramp 0x16) 0x12
  = Some 0x12131415
  /\ bin_to_uint16 cfg_little Little (uint16_to_bin 0xbeef mem_ramp 0x10) 0x12
     = Some 0x1213.
Proof.
  destruct (bin_read_over_write cfg_little Little 0xdeadbeef mem_ramp
              0x16 0x12) as (H32 & _).
  destruct (bin_read_over_write cfg_little Little 0xbeef mem_ramp
              0x10 0x12) as (_ & _ & _ & H16).
  split.
  - rewrite H32 by lia. reflexivity.
  - rewrite H16 by lia. reflexivity.
Defined.

(** ** How writes compose *)

(** X6. The later of two writes to one destination wins, and two writes
    whose destinations do not meet can be done in either order: the
    resulting memories agree on every cell. *)
Theorem uint32_to_bin_compose (x y : Z) (m : memory) (d d' a : Z) :
  uint32_to_bin y (uint32_to_bin x m d) d a = uint32_to_bin y m d a
  /\ uint16_to_bin y (uint16_to_bin x m d) d a = uint16_to_bin y m d a
  /\ (d + 4 <= d' \/ d' + 4 <= d ->
      uint32_to_bin y (uint32_to_bin x m d) d' a
      = uint32_to_bin x (uint32_to_bin y m d') d a)
  /\ (d + 2 <= d' \/ d' + 2 <= d ->
      uint16_to_bin y (uint16_to_bin x m d) d' a
      = uint16_to_bin x (uint16_to_bin y m d') d a).
Proof.
  repeat split; intros;
    rewrite ?uint32_to_bin_cell, ?uint16_to_bin_cell;
    repeat match goal with
           | |- context [?u =? ?w] => destruct (Z.eqb_spec u w)
           end; reflexivity || lia.
Qed.

Lemma uint32_to_bin_compose_witness :
  uint32_to_bin 2 (uint32_to_bin 1 mem_ramp 8) 12 9
  = uint32_to_bin 1 (uint32_to_bin 2 mem_ramp 12) 8 9
  /\ uint16_to_bin 2 (uint16_to_bin 1 mem_ramp 8) 10 11
     = uint16_to_bin 1 (uint16_to_bin 2 mem_ramp 10) 8 11.
Proof.
  destruct (uint32_to_bin_compose 1 2 mem_ramp 8 12 9) as (_ & _ & H32 & _).
  destruct (uint32_to_bin_compose 1 2 mem_ramp 8 10 11) as (_ & _ & _ & H16).
  split.
  - apply H32. lia.
  - apply H16. lia.
Defined.

(** X7. A 32-bit value is its two 16-bit halves, high half first: storing
    the high half at [d] and the low half at [d + 2] with [uint16_to_bin]
    gives the memory [uint32_to_bin] gives, and in a supported
    configuration the value read by [bin_to_uint32] at [s] is
    [(hi << 16) | lo] for the halves read by [bin_to_uint16] at [s] and
    [s + 2]. *)
Theorem bin_uint32_as_halves (cfg : build_config) (host : endian)
    (x : Z) (m : memory) (d : Z) :
  (forall a,
     uint16_to_bin (to_uint16 x)
       (uint16_to_bin (to_uint16 (Z.shiftr x 16)) m d) (d + 2) a
     = uint32_to_bin x m d a)
  /\ (supported cfg host = true -> bytes_at m d 4 ->
      exists hi lo,
        bin_to_uint16 cfg host m d = Some hi
        /\ bin_to_uint16 cfg host m (d + 2) = Some lo
        /\ bin_to_uint32 cfg host m d = Some (Z.lor (Z.shiftl hi 16) lo)).
Proof.
  split.
  - intros a. rewrite !uint16_to_bin_cell, uint32_to_bin_cell.
    replace (d + 2 + 1) with (d + 3) by lia.
    repeat match goal with
           | |- context [?u =? ?w] => destruct (Z.eqb_spec u w)
           end; try reflexivity; try lia;
      to_arith; Z.div_mod_to_equations; lia.
  - intros Hs H4.
    destruct (bytes_at_4 m d H4) as (B0 & B1 & B2 & B3).
    assert (Hhi : bytes_at m d 2)
      by (apply (bytes_at_weaken m d 4); [ lia | exact H4 ]).
    assert (Hlo : bytes_at m (d + 2) 2)
      by (apply (bytes_at_shift m d 2 4); [ lia | lia | exact H4 ]).
    eexists. eexists.
    split; [ apply bin_to_uint16_supported; assumption | ].
    split; [ apply bin_to_uint16_supported; assumption | ].
    rewrite bin_to_uint32_supported by assumption.
    replace (d + 2 + 1) with (d + 3) by lia.
    f_equal.
    rewrite big_endian32_arith, !big_endian16_arith by assumption.
    rewrite (lor_disjoint_add _ (2 ^ 8 * m (d + 2) + m (d + 3)) 16);
      [ | lia
        | to_arith; Z.div_mod_to_equations; lia
        | to_arith; Z.div_mod_to_equations; lia ].
    to_arith. lia.
Qed.

Lemma bin_uint32_as_halves_witness :
  exists hi lo,
    bin_to_uint16 cfg_little Little mem_ramp 0x12 = Some hi
    /\ bin_to_uint16 cfg_little Little mem_ramp (0x12 + 2) = Some lo
    /\ bin_to_uint32 cfg_little Little mem_ramp 0x12
       = Some (Z.lor (Z.shiftl hi 16) lo).
Proof.
  exact (proj2 (bin_uint32_as_halves cfg_little Little 0 mem_ramp 0x12)
           eq_refl (mem_ramp_bytes 0x12 4)).
Defined.

(** ** The pool table and the catch table read through the decoder *)

(** X8. Slot [n] of the pool table is the two cells [data + 2 n] and
    [data + 2 n + 1] taken in the host's byte order.  After
    [uint16_to_bin] stores a 16-bit [v] there, a big-endian host reads [v]
    from the slot and a little-endian host reads [v] with its two bytes
    exchanged; every other slot reads as before. *)
Theorem tbl_pools_after_uint16_to_bin (m : memory) (irep : mrbc_irep)
    (n v : Z) :
  is_uint16 v ->
  let m' := uint16_to_bin v m (IREP.data irep + 2 * n) in
  mrbc_irep_tbl_pools Big m' irep n = v
  /\ mrbc_irep_tbl_pools Little m' irep n
     = to_uint16 (Z.lor (Z.shiftl v 8) (Z.shiftr v 8))
  /\ (forall host k, k <> n ->
      mrbc_irep_tbl_pools host m' irep k = mrbc_irep_tbl_pools host m irep k).
Proof.
  intros Hv m'. subst m'.
  unfold mrbc_irep_tbl_pools, load_uint16.
  set (d := IREP.data irep + 2 * n).
  repeat split.
  - rewrite !uint16_to_bin_cell, Z.eqb_refl.
    replace (d + 1 =? d) with false by (symmetry; apply Z.eqb_neq; lia).
    rewrite Z.eqb_refl. to_arith. Z.div_mod_to_equations. lia.
  - rewrite !uint16_to_bin_cell, Z.eqb_refl.
    replace (d + 1 =? d) with false by (symmetry; apply Z.eqb_neq; lia).
    rewrite Z.eqb_refl.
    rewrite (lor_disjoint_add (Z.shiftl v 8) (Z.shiftr v 8) 8);
      [ | lia
        | to_arith; Z.div_mod_to_equations; lia
        | to_arith; Z.div_mod_to_equations; lia ].
    to_arith. Z.div_mod_to_equations. lia.
  - intros host k Hk.
    rewrite !uint16_to_bin_outside by (subst d; lia).
    reflexivity.
Qed.

Lemma tbl_pools_after_uint16_to_bin_witness :
  mrbc_irep_tbl_pools Big
    (uint16_to_bin 0x0102 mem_ramp (IREP.data irep_example + 2 * 0))
    irep_example 0 = 0x0102
  /\ mrbc_irep_tbl_pools Little
       (uint16_to_bin 0x0102 mem_ramp (IREP.data irep_example + 2 * 0))
       irep_example 0 = 0x0201.
Proof.
  destruct (tbl_pools_after_uint16_to_bin mem_ramp irep_example 0 0x0102)
    as (Hb & Hl & _).
  - unfold is_uint16. lia.
  - split; [ exact Hb | exact Hl ].
Defined.

(** X9. The members of a catch handler are byte arrays so that
    [bin_to_uint32] can decode them where they lie: for handler [k] of a
    table of [clen] handlers at [p], in every supported configuration,
    [bin_to_uint32] at the addresses [p + 13 k + 1], [p + 13 k + 5] and
    [p + 13 k + 9] returns the big-endian numbers held by the members
    [begin], [end] and [target], each below [2^32]. *)
Theorem catch_handler_members_decode (cfg : build_config) (host : endian)
    (m : memory) (p : Z) (clen k : nat) (h : mrbc_irep_catch_handler) :
  supported cfg host = true ->
  bytes_at m p (Z.of_nat clen * 13) ->
  nth_error (catch_table_at m p clen) k = Some h ->
  let q := p + Z.of_nat k * 13 in
  IREP_CATCH_HANDLER.type h = m q
  /\ bin_to_uint32 cfg host m (q + 1)
     = Some (array4_uint32 (IREP_CATCH_HANDLER.begin h))
  /\ bin_to_uint32 cfg host m (q + 5)
     = Some (array4_uint32 (IREP_CATCH_HANDLER.end_ h))
  /\ bin_to_uint32 cfg host m (q + 9)
     = Some (array4_uint32 (IREP_CATCH_HANDLER.target h))
  /\ is_uint32 (array4_uint32 (IREP_CATCH_HANDLER.begin h))
  /\ is_uint32 (array4_uint32 (IREP_CATCH_HANDLER.end_ h))
  /\ is_uint32 (array4_uint32 (IREP_CATCH_HANDLER.target h)).
Proof.
  intros Hs Hb Hn q.
  assert (Hk : (k < clen)%nat).
  { rewrite <- (catch_table_at_length m p clen).
    apply nth_error_Some. rewrite Hn. discriminate. }
  rewrite (catch_table_at_nth m clen p k Hk) in Hn.
  injection Hn as <-. unfold sizeof_catch_handler. fold q.
  change (1 + 4 + 4 + 4) with 13. fold q.
  assert (B1 : bytes_at m (q + 1) 4)
    by (subst q; intros i Hi;
        replace (p + Z.of_nat k * 13 + 1 + i)
          with (p + (Z.of_nat k * 13 + 1 + i)) by lia;
        apply Hb; lia).
  assert (B5 : bytes_at m (q + 5) 4)
    by (subst q; intros i Hi;
        replace (p + Z.of_nat k * 13 + 5 + i)
          with (p + (Z.of_nat k * 13 + 5 + i)) by lia;
        apply Hb; lia).
  assert (B9 : bytes_at m (q + 9) 4)
    by (subst q; intros i Hi;
        replace (p + Z.of_nat k * 13 + 9 + i)
          with (p + (Z.of_nat k * 13 + 9 + i)) by lia;
        apply Hb; lia).
  unfold catch_handler_at, read_array4, array4_uint32.
  cbn [IREP_CATCH_HANDLER.type IREP_CATCH_HANDLER.begin
       IREP_CATCH_HANDLER.end_ IREP_CATCH_HANDLER.target].
  destruct (bytes_at_4 m (q + 1) B1) as (? & ? & ? & ?).
  destruct (bytes_at_4 m (q + 5) B5) as (? & ? & ? & ?).
  destruct (bytes_at_4 m (q + 9) B9) as (? & ? & ? & ?).
  split; [ reflexivity | ].
  split; [ apply bin_to_uint32_supported; assumption | ].
  split; [ apply bin_to_uint32_supported; assumption | ].
  split; [ apply bin_to_uint32_supported; assumption | ].
  repeat split; apply big_endian32_range; assumption.
Qed.

Lemma catch_handler_members_decode_witness :
  bin_to_uint32 cfg_debug Big mem_ramp (0x40 + 2 * 13 + 1) = Some 0x5b5c5d5e
  /\ bin_to_uint32 cfg_debug Big mem_ramp (0x40 + 2 * 13 + 5) = Some 0x5f606162
  /\ bin_to_uint32 cfg_debug Big mem_ramp (0x40 + 2 * 13 + 9) = Some 0x63646566.
Proof.
  destruct (catch_handler_members_decode cfg_debug Big mem_ramp 0x40 3 2
              (catch_handler_at mem_ramp (0x40 + 2 * 13))
              eq_refl (mem_ramp_bytes 0x40 _) eq_refl)
    as (_ & Hb & He & Ht & _).
  split; [ exact Hb | ]. split; [ exact He | exact Ht ].
Defined.
